(** * Mollie API client for Node: models, resources and the callback convention

    A shallow embedding of the TypeScript sources of the client library:
    the [Capture] model, the [Orders] resource and the unit tests that pin
    down the HTTP client and the [Methods] resource.  The base classes
    [Model], [Resource], [List], [ApiError] and the HTTP client factory
    are not among the sources; where a statement needs them they are
    taken as parameters or modelled from the specification, and every
    such definition says so. *)

From stdpp Require Import gmap strings list fin_maps.
From Stdlib Require Import ZArith.

Set Warnings "-register-all".
Set Default Proof Using "Type".

Open Scope Z_scope.

(** ** JavaScript values *)

(** A callback is a function object; two callbacks are the same function
    when they carry the same identifier. *)
Definition callback := nat.

(** Values that flow through the library.  An object literal or a JSON
    document is [VObj]; an instance created by [new C(...)] is [VInst]
    and remembers its class, which is what [instanceof] observes. *)
Inductive value : Type :=
| VUndefined
| VNull
| VBool (b : bool)
| VNum (n : Z)
| VStr (s : string)
| VArr (xs : list value)
| VObj (o : gmap string value)
| VFun (f : callback)
| VInst (cls : string) (o : gmap string value).

(** The own enumerable properties of an object. *)
Abbreviation obj := (gmap string value).

(** [typeof v === 'function'] *)
Definition is_function (v : value) : bool :=
  match v with VFun _ => true | _ => false end.

(** [v instanceof cls] *)
Definition instanceof (v : value) (cls : string) : bool :=
  match v with VInst c _ => bool_decide (c = cls) | _ => false end.

(** Property read [v.k]; reading a property of a primitive that has none
    gives nothing. *)
Definition prop (v : value) (k : string) : option value :=
  match v with
  | VObj o | VInst _ o => o !! k
  | _ => None
  end.

(** ** Objects under construction *)

(** The prototype of an object: the prototype object of a class, or an
    object (or [null]) that was put in its place, given as a value. *)
Inductive prototype :=
| ClassPrototype (cls : string)
| ValuePrototype (p : value).

(** An ordinary, extensible object: its prototype and its own enumerable
    data properties. *)
Record object := {
  prototype_of : prototype;
  own : obj;
}.

(** [x instanceof cls] for an object under construction. *)
Definition is_instance (x : object) (cls : string) : bool :=
  match prototype_of x with
  | ClassPrototype c => bool_decide (c = cls)
  | ValuePrototype p => instanceof p cls
  end.

(** [Type(v)] is Object or Null: what the [__proto__] setter of
    [Object.prototype] accepts; any other value it ignores. *)
Definition object_or_null (v : value) : bool :=
  match v with
  | VNull | VArr _ | VObj _ | VFun _ | VInst _ _ => true
  | VUndefined | VBool _ | VNum _ | VStr _ => false
  end.

(** [null], a plain object or an array: as a prototype it brings only
    writable data properties, so that every later write on the object
    still makes an own property.  A function or a class instance may
    bring read-only or accessor properties ([name], [length], ...). *)
Definition plain_prototype (v : value) : bool :=
  match v with
  | VNull | VArr _ | VObj _ => true
  | _ => false
  end.

(** [Object.assign(target, source)]: every own property of [source] is
    written onto [target] with [[Set]]; an [undefined] source is skipped.
    The target is an ordinary object whose prototype chain has no
    accessor but [__proto__] of [Object.prototype] and no read-only
    property.  A key other than [__proto__] becomes an own property.  The
    key [__proto__], unless the target has it as an own property, reaches
    the setter: an object or [null] replaces the prototype, any other
    value is ignored, and no own property is made.  When the new
    prototype is not plain and other keys are written too, what happens
    (an own property, or a [TypeError]) can depend on the order of the
    keys, which a map does not keep: no result is given then ([None]). *)
Definition Object_assign (target : object) (source : option obj) : option object :=
  match source with
  | None => Some target
  | Some s =>
      match own target !! "__proto__", s !! "__proto__" with
      | None, Some p =>
          let data := delete "__proto__" s in
          if object_or_null p then
            if plain_prototype p || bool_decide (size data = 0%nat) then
              Some {| prototype_of := ValuePrototype p; own := data ∪ own target |}
            else None
          else Some {| prototype_of := prototype_of target; own := data ∪ own target |}
      | _, _ => Some {| prototype_of := prototype_of target; own := s ∪ own target |}
      end
  end.

(** lodash [startsWith(string, target)] on two strings. *)
Definition startsWith (s target : string) : bool := String.prefix target s.

(** ** Model classes *)

(** What the rest of the library uses of a model class: its static
    [resourcePrefix] and its constructor. *)
Record ModelClass := mkModelClass {
  resourcePrefix : string;
  new : option obj -> value;
}.

Module Capture.
Section Capture.
(** [Model] (the base class) is not among the sources.  [super()] is
    called without arguments; [Model_fields] are the own properties it
    leaves on [this] before the field initialisers of [Capture] run.
    [Model] is taken to declare no accessor and no read-only property. *)
Variable Model_fields : obj.

Definition resourcePrefix : string := "cpt_".

Definition _links : obj :=
  {[ "self" := VNull; "payment" := VNull; "documentation" := VNull ]}.

(** The field initialisers of the class body, in one object. *)
Definition fields : obj :=
  {[ "resource" := VStr "capture";
     "id" := VNull;
     "mode" := VNull;
     "amount" := VNull;
     "settlementAmount" := VNull;
     "paymentId" := VNull;
     "createdAt" := VNull;
     "_links" := VObj _links;
     "shipmentId" := VNull;
     "settlementId" := VNull ]}.

(** [this] after [super()] and the field initialisers. *)
Definition initialised : object :=
  {| prototype_of := ClassPrototype "Capture"; own := fields ∪ Model_fields |}.

(** [super(); <field initialisers>; Object.assign(this, props)] *)
Definition constructor (props : option obj) : option object :=
  Object_assign initialised props.

(** [new Capture(props)] *)
Definition create (props : option obj) : option object := constructor props.

(** Field-for-field round trip, in the words of the specification: the
    model has, under every key of the response, the value of the
    response, and under every other key its default. *)
Definition fields_equal_response (body : obj) : Prop :=
  ∃ c, create (Some body) = Some c
       ∧ ∀ k, own c !! k =
              match body !! k with
              | Some v => Some v
              | None => (fields ∪ Model_fields) !! k
              end.
End Capture.
End Capture.

(** ** Effects: callbacks and the transport *)

Inductive http_verb := GET | POST | PATCH | DELETE.

Record request := {
  verb : http_verb;
  url : string;
  query : value;
  body : value;
}.

(** What the HTTP client reports for a request: a response with a status
    and a body ([None] when the body is not JSON), or no response at all
    (DNS, connection, timeout). *)
Inductive reply :=
| Reply (status : Z) (data : option value)
| NoReply.

(** What a call does to the outside world, in order. *)
Inductive event :=
| Called (f : callback) (args : list value)
| Sent (rq : request).

(** The outside world: what each callback returns and what the remote API
    answers.  A callback has type [(error, result?) => void] and is taken
    to return normally. *)
Record world := {
  returns : callback -> list value -> value;
  answer : request -> reply;
}.

(** The completion of an [async] method body: the promise it returns is
    fulfilled with a value or rejected with the value thrown. *)
Inductive completion (A : Type) :=
| Fulfilled (a : A)
| Rejected (thrown : value).
Arguments Fulfilled {A} a.
Arguments Rejected {A} thrown.

(** Computations that log events and may throw. *)
Definition M (A : Type) : Type := world -> list event -> completion A * list event.

#[export] Instance M_ret : MRet M := λ A a _ t, (Fulfilled a, t).

#[export] Instance M_bind : MBind M := λ A B k m w t,
  match m w t with
  | (Fulfilled a, t') => k a w t'
  | (Rejected e, t') => (Rejected e, t')
  end.

Definition throw {A} (e : value) : M A := λ _ t, (Rejected e, t).

(** [f(...args)] *)
Definition call (f : callback) (args : list value) : M value :=
  fun w t => (Fulfilled (returns w f args), t ++ [Called f args]).

(** One round trip through the HTTP client. *)
Definition send (rq : request) : M reply :=
  fun w t => (Fulfilled (answer w rq), t ++ [Sent rq]).

(** Run a method call in a world, from an empty log. *)
Definition run {A} (m : M A) (w : world) : completion A * list event := m w [].

Definition outcome {A} (r : completion A * list event) : completion A := fst r.
Definition trace {A} (r : completion A * list event) : list event := snd r.

Definition is_Sent (e : event) : bool :=
  match e with Sent _ => true | Called _ _ => false end.

(** The requests a call made. *)
Definition requests (t : list event) : list event := filter (fun e => is_Sent e = true) t.

(** The argument lists a given callback was invoked with. *)
Fixpoint invocations (f : callback) (t : list event) : list (list value) :=
  match t with
  | [] => []
  | Called g args :: t' =>
      if bool_decide (g = f) then args :: invocations f t' else invocations f t'
  | Sent _ :: t' => invocations f t'
  end.

(** ** The base resource *)

(** What a resource class inherits: the five CRUD methods reached through
    [super] and the static [Resource.errorHandler]. *)
Record ResourceClass := {
  super_create : value -> option callback -> M value;
  super_get : string -> value -> option callback -> M value;
  super_list : value -> option callback -> M value;
  super_update : string -> value -> option callback -> M value;
  super_delete : string -> value -> option callback -> M value;
  errorHandler : value -> option callback -> M value;
}.

Definition is_2xx (status : Z) : bool := (200 <=? status) && (status <? 300).

Definition as_obj (v : value) : option obj :=
  match v with VObj o => Some o | _ => None end.

Module List.
(** Modelled from the spec: the [List] model (models/List.ts is not
    among the sources).  One page: the ordered models, the navigation
    links of the response and its count. *)
Definition create (items : list value) (links count : value) : value :=
  VInst "List" {[ "items" := VArr items; "links" := links; "count" := count ]}.

Definition items (l : value) : list value :=
  match prop l "items" with Some (VArr xs) => xs | _ => [] end.

Definition length (l : value) : nat := Datatypes.length (items l).

(** A named link of a links object, when it has it ([null] is absent). *)
Definition link_of (links : value) (name : string) : option value :=
  match prop links name with
  | Some VNull | Some VUndefined | None => None
  | Some v => Some v
  end.

(** A named navigation link of the page. *)
Definition link (name : string) (l : value) : option value :=
  links ← prop l "links"; link_of links name.

Definition nextLink : value -> option value := link "next".
Definition previousLink : value -> option value := link "previous".
End List.

Module Resource.
Section Resource.
(** Modelled from the spec: the generic CRUD facade (resource.ts is not
    among the sources), parameterised by the entity's path and model.
    Each operation is one round trip; the response is turned into a
    model or a list, and every failure goes through [errorHandler].
    [createError] is the error normalisation, see [ApiError]. *)
Variable createError : value -> value.
Variable resource : string.
Variable model : ModelClass.

(** The single entry point for failures: the typed error goes to the
    callback when one is supplied and is thrown otherwise. *)
Definition errorHandler (response : value) (cb : option callback) : M value :=
  let error := createError response in
  match cb with
  | Some f => call f [error]
  | None => throw error
  end.

(** The callback convention as an adapter over the result. *)
Definition resolve (result : value) (cb : option callback) : M value :=
  match cb with
  | Some f => call f [VNull; result]
  | None => mret result
  end.

(** [error.response] of the HTTP client for a response it rejects. *)
Definition response (status : Z) (data : option value) : value :=
  VObj (<["status" := VNum status]>
          match data with Some d => {[ "data" := d ]} | None => ∅ end).

Definition round_trip (rq : request) (decode : value -> option value)
    (cb : option callback) : M value :=
  r ← send rq;
  match r with
  | Reply status (Some data) =>
      if is_2xx status then
        match decode data with
        | Some result => resolve result cb
        | None => errorHandler (response status (Some data)) cb
        end
      else errorHandler (response status (Some data)) cb
  | Reply status None => errorHandler (response status None) cb
  | NoReply => errorHandler VUndefined cb
  end.

(** A single-entity body maps directly to a model. *)
Definition decode_model (data : value) : option value :=
  o ← as_obj data; Some (new model (Some o)).

(** A collection body has the array under [_embedded.<resource>], a
    [_links] object and a [count]. *)
Definition embedded (data : value) : option (list obj) :=
  e ← prop data "_embedded";
  a ← prop e resource;
  match a with
  | VArr xs => mapM as_obj xs
  | _ => None
  end.

Definition decode_list (data : value) : option value :=
  xs ← embedded data;
  Some (List.create ((λ o, new model (Some o)) <$> xs)
          (default VUndefined (prop data "_links"))
          (default VUndefined (prop data "count"))).

Definition collection_url : string := "/" +:+ resource.
Definition entity_url (id : string) : string := "/" +:+ resource +:+ "/" +:+ id.

(** The one request each operation sends. *)
Definition create_request (params : value) : request :=
  {| verb := POST; url := collection_url; query := VUndefined; body := params |}.
Definition get_request (id : string) (params : value) : request :=
  {| verb := GET; url := entity_url id; query := params; body := VUndefined |}.
Definition list_request (params : value) : request :=
  {| verb := GET; url := collection_url; query := params; body := VUndefined |}.
Definition update_request (id : string) (data : value) : request :=
  {| verb := PATCH; url := entity_url id; query := VUndefined; body := data |}.
Definition delete_request (id : string) (params : value) : request :=
  {| verb := DELETE; url := entity_url id; query := VUndefined; body := params |}.

Definition create (params : value) (cb : option callback) : M value :=
  round_trip (create_request params) decode_model cb.

Definition get (id : string) (params : value) (cb : option callback) : M value :=
  round_trip (get_request id params) decode_model cb.

Definition list (params : value) (cb : option callback) : M value :=
  round_trip (list_request params) decode_list cb.

Definition update (id : string) (data : value) (cb : option callback) : M value :=
  round_trip (update_request id data) decode_model cb.

Definition delete (id : string) (params : value) (cb : option callback) : M value :=
  round_trip (delete_request id params) decode_model cb.

(** The five operations as data, to speak of all of them at once. *)
Inductive operation :=
| Create (params : value)
| Get (id : string) (params : value)
| ListPage (params : value)
| Update (id : string) (data : value)
| Delete (id : string) (params : value).

Definition request_of (op : operation) : request :=
  match op with
  | Create params => create_request params
  | Get id params => get_request id params
  | ListPage params => list_request params
  | Update id data => update_request id data
  | Delete id params => delete_request id params
  end.

Definition perform (op : operation) (cb : option callback) : M value :=
  match op with
  | Create params => create params cb
  | Get id params => get id params cb
  | ListPage params => list params cb
  | Update id data => update id data cb
  | Delete id params => delete id params cb
  end.

Definition class : ResourceClass :=
  Build_ResourceClass create get list update delete errorHandler.
End Resource.
End Resource.

Module ApiError.
Section ApiError.
(** Modelled from the spec: the typed error (errors/ApiError.ts is not
    among the sources).  It carries a message, an optional status code
    and an optional field name.  The message is the [detail] of the
    response body when there is one, else a generic description, whose
    wording the specification leaves open. *)
Variable generic : string.

Definition body_of (response : value) : value :=
  default response (prop response "data").

Definition message_of (response : value) : string :=
  match prop (body_of response) "detail" with
  | Some (VStr detail) => detail
  | _ => generic
  end.

Definition create (response : value) : value :=
  VInst "ApiError"
    (<["message" := VStr (message_of response)]>
       (<["status" := default VUndefined (prop response "status")]>
          (<["field" := default VUndefined (prop (body_of response) "field")]> ∅))).

(** [err.getMessage()] *)
Definition getMessage (err : value) : option value := prop err "message".
End ApiError.
End ApiError.

Module HttpClient.
Section HttpClient.
(** Modelled from the spec: the HTTP client factory
    (create-http-client.ts is not among the sources; its unit test is).
    The base URL is the one the test expects.  How the [Authorization]
    header is derived from the credential and the values of
    [User-Agent] and [Accept-Encoding] are left open. *)
Variable authorization : string -> string.
Variable user_agent : string.
Variable accept_encoding : string.

Record options := {
  apiKey : string;
  extra_headers : gmap string string;
}.

(** [httpClient.defaults] *)
Record defaults := {
  baseURL : string;
  headers : gmap string string;
}.

Definition createHttpClient (o : options) : defaults :=
  {| baseURL := "https://api.mollie.com:443/v2/";
     headers :=
       {[ "Authorization" := authorization (apiKey o);
          "User-Agent" := user_agent;
          "Accept-Encoding" := accept_encoding;
          "Content-Type" := "application/json" ]} ∪ extra_headers o |}.

(** [expect(headers).toHaveProperty(name)] *)
Definition has_property (h : gmap string string) (name : string) : bool :=
  bool_decide (is_Some (h !! name)).
End HttpClient.
End HttpClient.

(** ** The orders resource *)

Module Orders.
Section Orders.
(** [Resource] (the base class) and [Order] (the model) are not among
    the sources: the methods below are written against any base class
    and any model class. *)
Variable super : ResourceClass.
Variable Order : ModelClass.

Definition resource : string := "orders".
Definition apiName : string := "Orders API".

(** [{ error: { message: 'The order id is invalid' } }] *)
Definition invalid_id : value :=
  VObj {[ "error" := VObj {[ "message" := VStr "The order id is invalid" ]} ]}.

(** [if (!startsWith(id, Order.resourcePrefix)) {
       Resource.errorHandler(Resource.errorHandler({...}, cb)); }] *)
Definition check_id (id : string) (cb : option callback) : M unit :=
  if negb (startsWith id (resourcePrefix Order)) then
    r ← errorHandler super invalid_id cb;
    errorHandler super r None;;
    mret tt
  else mret tt.

(** [typeof params === 'function' ? null : params] *)
Definition params_of (params : value) : value :=
  if is_function params then VNull else params.

(** [typeof params === 'function' ? params : cb] *)
Definition cb_of (params : value) (cb : option callback) : option callback :=
  match params with
  | VFun f => Some f
  | _ => cb
  end.

(** [typeof params === 'function' || typeof cb === 'function'] *)
Definition using_callbacks (params : value) (cb : option callback) : bool :=
  is_function params || bool_decide (is_Some cb).

Definition create (params : value) (cb : option callback) : M value :=
  super_create super params cb.

Definition get (id : string) (params : value) (cb : option callback) : M value :=
  check_id id cb;;
  if using_callbacks params cb then
    super_get super id (params_of params) (cb_of params cb)
  else super_get super id params cb.

Definition list (params : value) (cb : option callback) : M value :=
  if using_callbacks params cb then
    super_list super (params_of params) (cb_of params cb)
  else super_list super params cb.

Definition update (id : string) (data : value) (cb : option callback) : M value :=
  check_id id cb;;
  super_update super id data cb.

Definition cancel (id : string) (params : value) (cb : option callback) : M value :=
  check_id id cb;;
  if using_callbacks params cb then
    super_delete super id (params_of params) (cb_of params cb)
  else super_delete super id params cb.

(** [delete = this.cancel;] *)
Definition delete : string -> value -> option callback -> M value := cancel.

(** [all = this.list;] *)
Definition all : value -> option callback -> M value := list.
End Orders.
End Orders.

(** The orders resource on top of the base resource of the library. *)
Definition base (createError : value -> value) (Order : ModelClass) : ResourceClass :=
  Resource.class createError Orders.resource Order.

(** ** What the caller observes *)

(** One delivery to the caller: a result or an error. *)
Inductive signal :=
| Result (v : value)
| Error (e : value).

(** A completion callback is called as [cb(null, result)] or [cb(error)]. *)
Definition signal_of_call (args : list value) : signal :=
  match args with
  | [] => Error VUndefined
  | [e] => Error e
  | e :: v :: _ =>
      match e with
      | VNull => Result v
      | _ => Error e
      end
  end.

Fixpoint callback_signals (t : list event) : list signal :=
  match t with
  | [] => []
  | Called _ args :: t' => signal_of_call args :: callback_signals t'
  | Sent _ :: t' => callback_signals t'
  end.

(** A rejected promise delivers an error.  A fulfilled promise delivers
    its value as the result, unless the caller supplied a callback: then
    the value is only what the callback returned. *)
Definition promise_signals (with_callback : bool) (c : completion value) : list signal :=
  match c with
  | Rejected e => [Error e]
  | Fulfilled v => if with_callback then [] else [Result v]
  end.

(** Everything one call delivers, callbacks first. *)
Definition signals (with_callback : bool) (r : completion value * list event) : list signal :=
  callback_signals (trace r) ++ promise_signals with_callback (outcome r).

(** Exactly one outcome: one result or one error, and nothing else. *)
Definition single_outcome (sigs : list signal) : Prop :=
  (∃ v, sigs = [Result v]) ∨ (∃ e, sigs = [Error e]).

(** The error surfaced to the caller: the one thrown from the promise, or
    with a callback the first argument of its single call. *)
Definition surfaced_error (cb : option callback)
    (r : completion value * list event) : option value :=
  match cb with
  | None => match outcome r with Rejected e => Some e | Fulfilled _ => None end
  | Some f => match invocations f (trace r) with [[e]] => Some e | _ => None end
  end.

(** The result delivered to the caller: the value the promise fulfils
    with, or with a callback the second argument of its single call. *)
Definition delivered_result (cb : option callback)
    (r : completion value * list event) : option value :=
  match cb with
  | None => match outcome r with Fulfilled v => Some v | Rejected _ => None end
  | Some f => match invocations f (trace r) with [[VNull; v]] => Some v | _ => None end
  end.

(** Two errors for one call: [first], then another. *)
Definition delivers_twice (first : value) (sigs : list signal) : Prop :=
  ∃ e, sigs = [Error first; Error e].

(** The call fails with [error] before any request is made: the promise
    is rejected, nothing was sent, and [error] is what is thrown or, with
    a callback in the callback position, what the callback receives. *)
Definition fails_before_request (error : value) (cb : option callback)
    (r : completion value * list event) : Prop :=
  (∃ e, outcome r = Rejected e)
  ∧ requests (trace r) = []
  ∧ surfaced_error cb r = Some error.

(** The dual calling convention in the words of the specification: a
    supplied callback receives [(error, result)] with the semantics of
    the promise, so it is called once, with [(null, v)] when the promise
    form fulfils with [v] and with [(e)] when it rejects with [e]. *)
Definition callback_arguments (promise_form : completion value) : list value :=
  match promise_form with
  | Fulfilled v => [VNull; v]
  | Rejected e => [e]
  end.

Definition callback_form_agrees (f : callback)
    (promise_form callback_form : completion value * list event) : Prop :=
  invocations f (trace callback_form) = [callback_arguments (outcome promise_form)]
  ∧ requests (trace callback_form) = requests (trace promise_form).

(** ** Concrete runs *)

(** Modelled from the spec: a model class with no declared defaults, for
    concrete runs only (models/Order.ts and models/Method.ts are not among
    the sources).  Construction merges the supplied fields over the
    defaults.  No general statement depends on it. *)
Definition sample_model (cls prefix : string) : ModelClass :=
  mkModelClass prefix (λ props, VInst cls (default ∅ props)).

(** Mollie order ids carry the prefix [ord_]; method ids carry none. *)
Definition Order_sample : ModelClass := sample_model "Order" "ord_".
Definition Method_sample : ModelClass := sample_model "Method" "".

(** A world whose callbacks return [undefined] and whose API answers every
    request with [r]. *)
Definition world_answering (r : reply) : world :=
  {| returns := λ _ _, VUndefined; answer := λ _, r |}.

Definition sample_createError : value → value := ApiError.create "Unknown error".

(** * Properties *)

(** ** Model construction *)

Section CaptureFacts.
Variable Model_fields : obj.

(** A key other than [__proto__] is written as an own property. *)
Lemma Object_assign_own (target c : object) (s : obj) (k : string) :
  Object_assign target (Some s) = Some c →
  k ≠ "__proto__" →
  own c !! k = match s !! k with
               | Some v => Some v
               | None => own target !! k
               end.
Proof.
  intros Hc Hk.
  assert (Hunion : ∀ m : obj,
    (m ∪ own target) !! k = match m !! k with
                            | Some v => Some v
                            | None => own target !! k
                            end).
  { intros m. destruct (m !! k) as [v|] eqn:Hm.
    - by apply lookup_union_Some_l.
    - by rewrite lookup_union_r. }
  unfold Object_assign in Hc.
  destruct (own target !! "__proto__") as [q|] eqn:Hq;
    [injection Hc as <-; apply Hunion|].
  destruct (s !! "__proto__") as [p|] eqn:Hp;
    [|injection Hc as <-; apply Hunion].
  destruct (object_or_null p);
    [destruct (plain_prototype p || bool_decide (size (delete "__proto__" s) = 0%nat))|];
    try done;
    injection Hc as <-; simpl; rewrite Hunion; by rewrite lookup_delete_ne.
Qed.

(** The key [__proto__] is never made an own property, and says what the
    prototype becomes. *)
Lemma Object_assign_prototype (target c : object) (s : obj) :
  own target !! "__proto__" = None →
  Object_assign target (Some s) = Some c →
  own c !! "__proto__" = None
  ∧ prototype_of c = match s !! "__proto__" with
                     | Some p => if object_or_null p then ValuePrototype p
                                 else prototype_of target
                     | None => prototype_of target
                     end.
Proof.
  intros Hq Hc. unfold Object_assign in Hc. rewrite Hq in Hc.
  destruct (s !! "__proto__") as [p|] eqn:Hp.
  - destruct (object_or_null p);
      [destruct (plain_prototype p || bool_decide (size (delete "__proto__" s) = 0%nat))|];
      try done;
      injection Hc as <-; simpl; (split; [|done]);
      apply lookup_union_None; (split; [apply lookup_delete_eq|done]).
  - injection Hc as <-. simpl. split; [|done].
    by apply lookup_union_None.
Qed.

(** JSON data under [__proto__], or no such key: the result is defined. *)
Lemma Object_assign_defined (target : object) (s : obj) :
  match s !! "__proto__" with
  | Some (VFun _) | Some (VInst _ _) => True
  | _ => is_Some (Object_assign target (Some s))
  end.
Proof.
  unfold Object_assign.
  destruct (s !! "__proto__") as [[]|]; try done;
    destruct (own target !! "__proto__"); by eexists.
Qed.

Lemma Capture_no_proto_field :
  Model_fields !! "__proto__" = None →
  own (Capture.initialised Model_fields) !! "__proto__" = None.
Proof. intros HM. simpl. by apply lookup_union_None. Qed.

Lemma Capture_field (k : string) (v : value) :
  Capture.fields !! k = Some v →
  own (Capture.initialised Model_fields) !! k = Some v.
Proof. intros Hk. simpl. by apply lookup_union_Some_l. Qed.
End CaptureFacts.

(** C4, as the specification words it, fails: a response with the key
    [__proto__] does not get it back as a field of the model.  Here the
    value is a string, which the setter ignores. *)
Lemma Capture_ignores_proto_string :
  ¬ Capture.fields_equal_response ∅ {[ "__proto__" := VStr "x" ]}.
Proof.
  intros (c & Hc & Hfields).
  specialize (Hfields "__proto__").
  injection Hc as <-. by vm_compute in Hfields.
Qed.

(** C4, as the code has it.  The capture built from a response body has,
    under every key of the body other than [__proto__], the value of the
    body, and under every other key its default: the declared one, or
    what the base class left.  The key [__proto__] never becomes a field:
    an object or [null] under it replaces the prototype of the capture,
    any other value is ignored.  The capture exists whenever the body has
    no such key or JSON data under it. *)
Theorem Capture_merges_props_over_defaults (Model_fields : obj) (body : obj) :
  Model_fields !! "__proto__" = None →
  match body !! "__proto__" with
  | Some (VFun _) | Some (VInst _ _) => True
  | _ => is_Some (Capture.create Model_fields (Some body))
  end
  ∧ ∀ c : object, Capture.create Model_fields (Some body) = Some c →
      (∀ k : string, k ≠ "__proto__" →
         own c !! k = match body !! k with
                      | Some v => Some v
                      | None => (Capture.fields ∪ Model_fields) !! k
                      end)
      ∧ own c !! "__proto__" = None
      ∧ prototype_of c = match body !! "__proto__" with
                         | Some p => if object_or_null p then ValuePrototype p
                                     else ClassPrototype "Capture"
                         | None => ClassPrototype "Capture"
                         end.
Proof.
  intros HM. split; [apply Object_assign_defined|].
  intros c Hc. split.
  - intros k Hk. by apply (Object_assign_own _ _ _ _ Hc).
  - by apply (Object_assign_prototype _ _ _ (Capture_no_proto_field _ HM) Hc).
Qed.

Lemma Capture_merges_props_over_defaults_witness :
  let body : obj :=
    {[ "id" := VStr "cpt_4qqhO89gsT"; "__proto__" := VObj {[ "mode" := VStr "live" ]} ]} in
  ∃ c : object,
    Capture.create ∅ (Some body) = Some c
    ∧ own c !! "id" = Some (VStr "cpt_4qqhO89gsT")
    ∧ own c !! "resource" = Some (VStr "capture")
    ∧ own c !! "mode" = Some VNull
    ∧ own c !! "__proto__" = None
    ∧ prototype_of c = ValuePrototype (VObj {[ "mode" := VStr "live" ]}).
Proof.
  intros body.
  destruct (Capture_merges_props_over_defaults ∅ body) as [[c Hc] Hfields];
    [reflexivity|].
  destruct (Hfields c Hc) as (Hown & Hnone & Hproto).
  exists c. split; [exact Hc|].
  split; [by rewrite (Hown "id")|].
  split; [by rewrite (Hown "resource")|].
  split; [by rewrite (Hown "mode")|].
  split; [exact Hnone|exact Hproto].
Defined.

(** C9. A capture constructed without arguments, or from an empty partial,
    is a Capture with [resource = 'capture'], every entity field [null]
    and [_links] with [self], [payment] and [documentation] all [null];
    the static prefix is ['cpt_'].  Any key other than [__proto__] that is
    supplied in the partial, [resource] and [_links] included, has the
    supplied value on the capture, as it is; the capture exists whenever
    the partial has no key [__proto__]. *)
Theorem Capture_defaults (Model_fields : obj) :
  ∃ c : object,
    Capture.create Model_fields None = Some c
    ∧ Capture.create Model_fields (Some ∅) = Some c
    ∧ is_instance c "Capture" = true
    ∧ own c !! "resource" = Some (VStr "capture")
    ∧ Forall (λ k, own c !! k = Some VNull)
        ["id"; "mode"; "amount"; "settlementAmount"; "paymentId"; "createdAt";
         "shipmentId"; "settlementId"]
    ∧ own c !! "_links"
      = Some (VObj {[ "self" := VNull; "payment" := VNull; "documentation" := VNull ]})
    ∧ Capture.resourcePrefix = "cpt_"
    ∧ ∀ (props : obj) (k : string) (v : value), k ≠ "__proto__" →
        (props !! "__proto__" = None →
           is_Some (Capture.create Model_fields (Some (<[k := v]> props))))
        ∧ ∀ c' : object,
            Capture.create Model_fields (Some (<[k := v]> props)) = Some c' →
            own c' !! k = Some v.
Proof.
  exists (Capture.initialised Model_fields).
  split; [reflexivity|].
  split.
  { unfold Capture.create, Capture.constructor, Object_assign.
    rewrite lookup_empty. destruct (own _ !! "__proto__");
      by rewrite (left_id_L ∅ (∪)). }
  split; [reflexivity|].
  split; [by apply Capture_field|].
  split; [repeat constructor; by apply Capture_field|].
  split; [by apply Capture_field|].
  split; [reflexivity|].
  intros props k v Hk. split.
  - intros Hp.
    pose proof (Object_assign_defined (Capture.initialised Model_fields)
                  (<[k := v]> props)) as Hdef.
    by rewrite lookup_insert_ne, Hp in Hdef.
  - intros c' Hc'.
    rewrite (Object_assign_own _ _ _ _ Hc' Hk). by rewrite lookup_insert_eq.
Qed.

Lemma Capture_defaults_witness :
  ∃ c' : object,
    Capture.create ∅ (Some (<["resource" := VStr "refund"]> {[ "id" := VStr "cpt_1" ]}))
      = Some c'
    ∧ own c' !! "resource" = Some (VStr "refund").
Proof.
  destruct (Capture_defaults ∅) as (c & _ & _ & _ & _ & _ & _ & _ & Hsupplied).
  destruct (Hsupplied {[ "id" := VStr "cpt_1" ]} "resource" (VStr "refund"))
    as [[c' Hc'] Hown]; [done|reflexivity|].
  exists c'. split; [exact Hc'|]. by apply Hown.
Defined.

(** ** The HTTP client *)

(** C7. The client made by the factory has the fixed HTTPS base URL of the
    API host, and its default headers include [Authorization], derived
    from the configured credential, [User-Agent], [Accept-Encoding] and
    [Content-Type]. *)
Theorem createHttpClient_defaults
    (authorization : string → string) (user_agent accept_encoding : string)
    (o : HttpClient.options) :
  let client := HttpClient.createHttpClient authorization user_agent accept_encoding o in
  HttpClient.baseURL client = "https://api.mollie.com:443/v2/"
  ∧ HttpClient.headers client !! "Authorization"
      = Some (authorization (HttpClient.apiKey o))
  ∧ HttpClient.headers client !! "Content-Type" = Some "application/json"
  ∧ Forall (λ name, HttpClient.has_property (HttpClient.headers client) name = true)
      ["Authorization"; "User-Agent"; "Accept-Encoding"; "Content-Type"].
Proof.
  intros client. subst client. simpl.
  assert (Hl : ∀ k v,
    ({[ "Authorization" := authorization (HttpClient.apiKey o);
        "User-Agent" := user_agent;
        "Accept-Encoding" := accept_encoding;
        "Content-Type" := "application/json" ]} : gmap string string) !! k = Some v →
    (({[ "Authorization" := authorization (HttpClient.apiKey o);
        "User-Agent" := user_agent;
        "Accept-Encoding" := accept_encoding;
        "Content-Type" := "application/json" ]} : gmap string string)
       ∪ HttpClient.extra_headers o) !! k = Some v).
  { intros k v Hk. by apply lookup_union_Some_l. }
  split; [reflexivity|].
  split; [by apply Hl|].
  split; [by apply Hl|].
  repeat constructor; unfold HttpClient.has_property;
    apply bool_decide_eq_true; eexists; by apply Hl.
Qed.

(** ** Running method bodies *)

Section RunFacts.
Context {A B : Type}.

Lemma bind_run (m : M A) (k : A → M B) (w : world) (t : list event) :
  (m ≫= k) w t =
  match m w t with
  | (Fulfilled a, t') => k a w t'
  | (Rejected e, t') => (Rejected e, t')
  end.
Proof. reflexivity. Qed.

Lemma bind_ret (a : A) (k : A → M B) : mret a ≫= k = k a.
Proof. reflexivity. Qed.

Lemma bind_throw (e : value) (k : A → M B) : throw e ≫= k = throw e.
Proof. reflexivity. Qed.
End RunFacts.

(** ** The deprecated calling convention of the orders resource *)

(** C10. When [get], [list] or [cancel] of the orders resource receives a
    function in the params position, the base method is called with
    [null] as params and with that function as callback; whatever the
    arguments, the params handed to the base method are never a
    function. *)
Theorem Orders_shift_callback
    (Order : ModelClass) (id : string) (cb : option callback) :
  (∀ (super : ResourceClass) (f : callback),
      Orders.get super Order id (VFun f) cb
        = (Orders.check_id super Order id cb;; super_get super id VNull (Some f))
      ∧ Orders.list super (VFun f) cb = super_list super VNull (Some f)
      ∧ Orders.cancel super Order id (VFun f) cb
        = (Orders.check_id super Order id cb;; super_delete super id VNull (Some f)))
  ∧ ∀ params : value, ∃ (params' : value) (cb' : option callback),
      is_function params' = false
      ∧ ∀ super : ResourceClass,
          Orders.get super Order id params cb
            = (Orders.check_id super Order id cb;; super_get super id params' cb')
          ∧ Orders.list super params cb = super_list super params' cb'
          ∧ Orders.cancel super Order id params cb
            = (Orders.check_id super Order id cb;; super_delete super id params' cb').
Proof.
  split.
  - intros super f. by repeat split.
  - intros params.
    exists (Orders.params_of params), (Orders.cb_of params cb).
    split; [by destruct params|].
    intros super.
    unfold Orders.get, Orders.list, Orders.cancel.
    destruct (Orders.using_callbacks params cb) eqn:Hu; [done|].
    apply orb_false_iff in Hu as [Hp _].
    unfold Orders.params_of. rewrite Hp.
    by destruct params.
Qed.

(** ** Identifier validation *)

Section OrdersOverResource.
Variable createError : value → value.
Variable Order : ModelClass.
Variable w : world.

Let orders : ResourceClass := base createError Order.
Let invalid : value := createError Orders.invalid_id.

Lemma check_id_valid (super : ResourceClass) (id : string) (cb : option callback) :
  startsWith id (resourcePrefix Order) = true →
  Orders.check_id super Order id cb = mret tt.
Proof. intros Hid. unfold Orders.check_id. by rewrite Hid. Qed.

(** Without a callback the inner [errorHandler] throws. *)
Lemma check_id_throws (id : string) (t : list event) :
  startsWith id (resourcePrefix Order) = false →
  Orders.check_id orders Order id None w t = (Rejected invalid, t).
Proof. intros Hid. unfold Orders.check_id. by rewrite Hid. Qed.

(** With a callback the inner [errorHandler] calls it and returns what it
    returned; the outer one, which has no callback, throws. *)
Lemma check_id_calls_back (id : string) (f : callback) (t : list event) :
  startsWith id (resourcePrefix Order) = false →
  Orders.check_id orders Order id (Some f) w t
  = (Rejected (createError (returns w f [invalid])), t ++ [Called f [invalid]]).
Proof. intros Hid. unfold Orders.check_id. by rewrite Hid. Qed.

Lemma invalid_id_fails (id : string) (cb : option callback) (k : M value) :
  startsWith id (resourcePrefix Order) = false →
  fails_before_request invalid cb (run (Orders.check_id orders Order id cb;; k) w).
Proof.
  intros Hid. unfold run. rewrite bind_run.
  destruct cb as [f|].
  - rewrite check_id_calls_back by done.
    split; [by eexists|]. split; [done|].
    simpl. by rewrite bool_decide_eq_true_2.
  - rewrite check_id_throws by done.
    split; [by eexists|]. by split.
Qed.
End OrdersOverResource.

(** C1. For an id that does not start with the prefix of the order model,
    [get], [update] and [cancel] of the orders resource fail with the
    validation error and send no request: the promise is rejected before
    the base method is reached, and the validation error is what is
    thrown or what the callback receives. *)
Theorem invalid_id_short_circuits
    (createError : value → value) (Order : ModelClass) (w : world)
    (id : string) (params : value) (cb : option callback) :
  startsWith id (resourcePrefix Order) = false →
  let orders := base createError Order in
  let invalid := createError Orders.invalid_id in
  fails_before_request invalid cb (run (Orders.get orders Order id params cb) w)
  ∧ fails_before_request invalid cb (run (Orders.update orders Order id params cb) w)
  ∧ fails_before_request invalid cb (run (Orders.cancel orders Order id params cb) w).
Proof.
  intros Hid orders invalid.
  repeat split; by apply invalid_id_fails.
Qed.

Lemma invalid_id_short_circuits_witness :
  let w := world_answering (Reply 200 (Some (VObj ∅))) in
  let orders := base sample_createError Order_sample in
  let invalid := sample_createError Orders.invalid_id in
  fails_before_request invalid (Some 0%nat)
    (run (Orders.get orders Order_sample "foo" VUndefined (Some 0%nat)) w)
  ∧ fails_before_request invalid (Some 0%nat)
      (run (Orders.update orders Order_sample "foo" VUndefined (Some 0%nat)) w)
  ∧ fails_before_request invalid (Some 0%nat)
      (run (Orders.cancel orders Order_sample "foo" VUndefined (Some 0%nat)) w).
Proof.
  apply (invalid_id_short_circuits sample_createError Order_sample
           (world_answering (Reply 200 (Some (VObj ∅)))) "foo" VUndefined (Some 0%nat)).
  reflexivity.
Defined.

(** ** The base resource: one request, one delivery *)

Section ResourceFacts.
Variable createError : value → value.
Variable w : world.

Lemma round_trip_resolves (rq : request) (decode : value → option value)
    (cb : option callback) (status : Z) (data result : value) (t : list event) :
  answer w rq = Reply status (Some data) →
  is_2xx status = true →
  decode data = Some result →
  Resource.round_trip createError rq decode cb w t
  = Resource.resolve result cb w (t ++ [Sent rq]).
Proof.
  intros Hans Hok Hdec. unfold Resource.round_trip.
  rewrite bind_run. simpl. by rewrite Hans, Hok, Hdec.
Qed.

Lemma round_trip_fails (rq : request) (decode : value → option value)
    (cb : option callback) (status : Z) (data : option value) (t : list event) :
  answer w rq = Reply status data →
  is_2xx status = false →
  Resource.round_trip createError rq decode cb w t
  = Resource.errorHandler createError (Resource.response status data) cb w (t ++ [Sent rq]).
Proof.
  intros Hans Hok. unfold Resource.round_trip.
  rewrite bind_run. simpl. rewrite Hans, Hok. by destruct data.
Qed.

Lemma resolve_delivers (result : value) (cb : option callback) (rq : request) :
  delivered_result cb (Resource.resolve result cb w [Sent rq]) = Some result.
Proof.
  destruct cb as [f|]; [|done].
  simpl. by rewrite bool_decide_eq_true_2.
Qed.

Lemma errorHandler_surfaces (r : value) (cb : option callback) (rq : request) :
  surfaced_error cb (Resource.errorHandler createError r cb w [Sent rq])
  = Some (createError r).
Proof.
  destruct cb as [f|]; [|done].
  simpl. by rewrite bool_decide_eq_true_2.
Qed.

Lemma perform_round_trip (resource : string) (model : ModelClass)
    (op : Resource.operation) (cb : option callback) :
  ∃ decode,
    Resource.perform createError resource model op cb
    = Resource.round_trip createError (Resource.request_of resource op) decode cb.
Proof. destruct op; by eexists. Qed.
End ResourceFacts.

(** ** Error normalisation *)

Lemma ApiError_message (generic : string) (status : Z) (body : value) :
  ApiError.getMessage (ApiError.create generic (Resource.response status (Some body)))
  = Some (VStr match prop body "detail" with
               | Some (VStr detail) => detail
               | _ => generic
               end).
Proof.
  unfold ApiError.getMessage, ApiError.create. simpl.
  rewrite lookup_insert_eq. reflexivity.
Qed.

(** C3. When the API answers an operation with a non-2xx status and a
    body, the error surfaced to the caller, thrown from the promise or
    handed to the callback as its first argument, has the body's [detail]
    as its message when the body has one, and the generic description
    when it has none. *)
Theorem error_message_is_detail
    (generic resource : string) (model : ModelClass) (w : world)
    (op : Resource.operation) (cb : option callback) (status : Z) (body : value) :
  is_2xx status = false →
  answer w (Resource.request_of resource op) = Reply status (Some body) →
  let r := run (Resource.perform (ApiError.create generic) resource model op cb) w in
  (∀ X : string, prop body "detail" = Some (VStr X) →
     surfaced_error cb r ≫= ApiError.getMessage = Some (VStr X))
  ∧ (prop body "detail" = None →
     surfaced_error cb r ≫= ApiError.getMessage = Some (VStr generic)).
Proof.
  intros Hstatus Hans r. subst r.
  destruct (perform_round_trip (ApiError.create generic) resource model op cb)
    as [decode ->].
  unfold run. rewrite (round_trip_fails _ _ _ _ _ _ _ _ Hans Hstatus).
  rewrite app_nil_l, errorHandler_surfaces.
  cbn [mbind option_bind]. rewrite ApiError_message.
  split.
  - by intros X ->.
  - by intros ->.
Qed.

Lemma error_message_is_detail_witness :
  let body := VObj {[ "detail" := VStr "The method id is invalid" ]} in
  let w := world_answering (Reply 500 (Some body)) in
  surfaced_error None
    (run (Resource.perform (ApiError.create "Unknown error") "methods" Method_sample
            (Resource.Get "foo" VUndefined) None) w)
    ≫= ApiError.getMessage = Some (VStr "The method id is invalid")
  ∧ surfaced_error (Some 0%nat)
      (run (Resource.perform (ApiError.create "Unknown error") "methods" Method_sample
              (Resource.Get "foo" VUndefined) (Some 0%nat)) w)
      ≫= ApiError.getMessage = Some (VStr "The method id is invalid").
Proof.
  intros body w. split.
  - apply (error_message_is_detail "Unknown error" "methods" Method_sample w
             (Resource.Get "foo" VUndefined) None 500 body);
      reflexivity.
  - apply (error_message_is_detail "Unknown error" "methods" Method_sample w
             (Resource.Get "foo" VUndefined) (Some 0%nat) 500 body);
      reflexivity.
Defined.

(** ** Collections *)

Section ListFacts.
Variable createError : value → value.
Variable resource : string.
Variable model : ModelClass.

Lemma embedded_items (body e : obj) (items : list obj) :
  body !! "_embedded" = Some (VObj e) →
  e !! resource = Some (VArr (VObj <$> items)) →
  Resource.embedded resource (VObj body) = Some items.
Proof.
  intros Hbody He. unfold Resource.embedded. simpl.
  rewrite Hbody. simpl. rewrite He. simpl.
  by apply mapM_fmap_Some.
Qed.

Lemma List_items_create (items : list value) (links count : value) :
  List.items (List.create items links count) = items.
Proof. reflexivity. Qed.

Lemma List_link_create (items : list value) (links count : value) (name : string) :
  List.link name (List.create items links count) = List.link_of links name.
Proof. reflexivity. Qed.
End ListFacts.

(** C6. For a collection response with N embedded items, [list] delivers
    a List of length N whose elements are the models of the items, in the
    order received, and whose links are those of the response; for an
    empty collection, whose response has no next and no previous link,
    the List has length zero and neither link. *)
Theorem list_keeps_items_in_order
    (createError : value → value) (resource : string) (model : ModelClass)
    (w : world) (params : value) (cb : option callback)
    (status : Z) (body e : obj) (items : list obj) :
  answer w (Resource.list_request resource params) = Reply status (Some (VObj body)) →
  is_2xx status = true →
  body !! "_embedded" = Some (VObj e) →
  e !! resource = Some (VArr (VObj <$> items)) →
  let response_link name :=
    List.link_of (default VUndefined (body !! "_links")) name in
  ∃ page : value,
    delivered_result cb (run (Resource.list createError resource model params cb) w)
      = Some page
    ∧ instanceof page "List" = true
    ∧ List.length page = length items
    ∧ List.items page = (λ o, new model (Some o)) <$> items
    ∧ (∀ name, List.link name page = response_link name)
    ∧ (items = [] → response_link "next" = None → response_link "previous" = None →
       List.length page = 0%nat
       ∧ List.nextLink page = None ∧ List.previousLink page = None).
Proof.
  intros Hans Hok Hbody He response_link.
  eexists. split.
  { unfold run, Resource.list.
    erewrite round_trip_resolves; [apply resolve_delivers|done..|].
    unfold Resource.decode_list.
    rewrite (embedded_items _ _ _ _ Hbody He). reflexivity. }
  split; [reflexivity|].
  split; [unfold List.length; rewrite List_items_create; by rewrite length_fmap|].
  split; [by rewrite List_items_create|].
  split; [intros name; by rewrite List_link_create|].
  intros -> Hnext Hprev. by repeat split.
Qed.

Lemma list_keeps_items_in_order_witness :
  let body : obj :=
    {[ "_embedded" := VObj {[ "methods" := VArr [] ]};
       "count" := VNum 0;
       "_links" := VObj {[ "self" := VStr "https://api.mollie.com/v2/methods";
                           "next" := VNull; "previous" := VNull ]} ]} in
  let w := world_answering (Reply 200 (Some (VObj body))) in
  ∃ page : value,
    delivered_result None
      (run (Resource.list sample_createError "methods" Method_sample VUndefined None) w)
      = Some page
    ∧ List.length page = 0%nat
    ∧ List.nextLink page = None ∧ List.previousLink page = None.
Proof.
  intros body w.
  destruct (list_keeps_items_in_order sample_createError "methods" Method_sample w
              VUndefined None 200 body {[ "methods" := VArr [] ]} [])
    as (page & Hpage & _ & _ & _ & _ & Hempty);
    [reflexivity..|].
  exists page. split; [exact Hpage|].
  apply Hempty; reflexivity.
Defined.

(** Two items come back as two models, first one first. *)
Example list_two_items :
  let item (id : string) : obj := {[ "id" := VStr id ]} in
  let body : obj :=
    {[ "_embedded" := VObj {[ "methods" := VArr [VObj (item "ideal"); VObj (item "creditcard")] ]};
       "count" := VNum 2 ]} in
  let w := world_answering (Reply 200 (Some (VObj body))) in
  (List.items <$> delivered_result (Some 7%nat)
     (run (Resource.list sample_createError "methods" Method_sample VUndefined (Some 7%nat)) w))
  = Some [VInst "Method" (item "ideal"); VInst "Method" (item "creditcard")].
Proof. vm_compute. reflexivity. Qed.

(** ** Cancelling an order *)

Section CancelFacts.
Variable createError : value → value.
Variable Order : ModelClass.
Variable w : world.

Lemma decode_model_obj (o : obj) :
  Resource.decode_model Order (VObj o) = Some (new Order (Some o)).
Proof. reflexivity. Qed.

Lemma using_callbacks_cb_of (params : value) (cb : option callback) :
  Orders.using_callbacks params cb = bool_decide (is_Some (Orders.cb_of params cb)).
Proof.
  unfold Orders.using_callbacks.
  by destruct params.
Qed.

(** With or without the callback shift, the base method gets
    [params_of params] and [cb_of params cb]. *)
Lemma cancel_delegates (super : ResourceClass) (id : string) (params : value)
    (cb : option callback) :
  Orders.cancel super Order id params cb
  = (Orders.check_id super Order id cb;;
     super_delete super id (Orders.params_of params) (Orders.cb_of params cb)).
Proof.
  unfold Orders.cancel.
  destruct (Orders.using_callbacks params cb) eqn:Hu; [done|].
  apply orb_false_iff in Hu as [Hp _].
  unfold Orders.params_of. rewrite Hp. by destruct params.
Qed.

Lemma get_delegates (super : ResourceClass) (id : string) (params : value)
    (cb : option callback) :
  Orders.get super Order id params cb
  = (Orders.check_id super Order id cb;;
     super_get super id (Orders.params_of params) (Orders.cb_of params cb)).
Proof.
  unfold Orders.get.
  destruct (Orders.using_callbacks params cb) eqn:Hu; [done|].
  apply orb_false_iff in Hu as [Hp _].
  unfold Orders.params_of. rewrite Hp. by destruct params.
Qed.

Lemma list_delegates (super : ResourceClass) (params : value) (cb : option callback) :
  Orders.list super params cb
  = super_list super (Orders.params_of params) (Orders.cb_of params cb).
Proof.
  unfold Orders.list.
  destruct (Orders.using_callbacks params cb) eqn:Hu; [done|].
  apply orb_false_iff in Hu as [Hp _].
  unfold Orders.params_of. rewrite Hp. by destruct params.
Qed.
End CancelFacts.

(** C8. On the orders resource [delete] is [cancel]: the same function, so
    the same requests, callbacks, result and error for every id, params
    and callback.  For an order id the API answers with a 2xx status and
    an order, what the caller is handed is the Order model built from
    that answer, not a success flag. *)
Theorem Orders_delete_is_cancel :
  (∀ (super : ResourceClass) (Order : ModelClass),
      Orders.delete super Order = Orders.cancel super Order)
  ∧ ∀ (createError : value → value) (Order : ModelClass) (w : world)
      (id : string) (params : value) (cb : option callback) (status : Z) (o : obj),
      startsWith id (resourcePrefix Order) = true →
      answer w (Resource.delete_request Orders.resource id
                  (if is_function params then VNull else params))
        = Reply status (Some (VObj o)) →
      is_2xx status = true →
      delivered_result (match params with VFun f => Some f | _ => cb end)
        (run (Orders.delete (base createError Order) Order id params cb) w)
      = Some (new Order (Some o)).
Proof.
  split; [reflexivity|].
  intros createError Order w id params cb status o Hid Hans Hok.
  unfold Orders.delete. rewrite cancel_delegates.
  rewrite check_id_valid by done.
  change (delivered_result (Orders.cb_of params cb)
            (run (Resource.delete createError Orders.resource Order id
                    (Orders.params_of params) (Orders.cb_of params cb)) w)
          = Some (new Order (Some o))).
  unfold run, Resource.delete.
  erewrite round_trip_resolves; [apply resolve_delivers|exact Hans|exact Hok|].
  apply decode_model_obj.
Qed.

Lemma Orders_delete_is_cancel_witness :
  let o : obj := {[ "id" := VStr "ord_8wmqcHMN4U"; "status" := VStr "canceled" ]} in
  let w := world_answering (Reply 200 (Some (VObj o))) in
  delivered_result None
    (run (Orders.delete (base sample_createError Order_sample) Order_sample
            "ord_8wmqcHMN4U" VUndefined None) w)
  = Some (VInst "Order" o).
Proof.
  intros o w.
  apply (proj2 Orders_delete_is_cancel sample_createError Order_sample w
           "ord_8wmqcHMN4U" VUndefined None 200 o);
    reflexivity.
Defined.

(** ** One outcome per call *)

Section Outcomes.
Variable createError : value → value.
Variable w : world.

Lemma round_trip_single (rq : request) (decode : value → option value)
    (cb : option callback) :
  single_outcome
    (signals (bool_decide (is_Some cb))
       (run (Resource.round_trip createError rq decode cb) w)).
Proof.
  unfold run, Resource.round_trip. rewrite bind_run. simpl.
  unfold single_outcome.
  destruct (answer w rq) as [status [data|]|];
    [destruct (is_2xx status); [destruct (decode data)|]|..];
    destruct cb as [f|]; simpl; eauto.
Qed.

Lemma round_trip_agrees (rq : request) (decode : value → option value) (f : callback) :
  callback_form_agrees f
    (run (Resource.round_trip createError rq decode None) w)
    (run (Resource.round_trip createError rq decode (Some f)) w).
Proof.
  unfold run, Resource.round_trip. rewrite !bind_run. simpl.
  unfold callback_form_agrees.
  destruct (answer w rq) as [status [data|]|];
    [destruct (is_2xx status); [destruct (decode data)|]|..];
    simpl; by rewrite bool_decide_eq_true_2.
Qed.

Variable Order : ModelClass.

Let orders : ResourceClass := base createError Order.
Let invalid : value := createError Orders.invalid_id.

(** What a method that starts with [check_id] delivers, by whether the
    id has the prefix and a callback sits in the callback position. *)
Lemma checked_outcomes (id : string) (cb : option callback) (flag : bool)
    (rq : request) (decode : value → option value) (cb' : option callback) :
  flag = bool_decide (is_Some cb') →
  let sigs :=
    signals flag
      (run (Orders.check_id orders Order id cb;;
            Resource.round_trip createError rq decode cb') w) in
  let twice := startsWith id (resourcePrefix Order) = false ∧ is_Some cb in
  (twice ∧ delivers_twice invalid sigs) ∨ (¬ twice ∧ single_outcome sigs).
Proof.
  intros -> sigs twice. subst sigs twice. unfold orders, invalid.
  destruct (startsWith id (resourcePrefix Order)) eqn:Hid.
  - right. split; [by intros [? _]|].
    rewrite check_id_valid by done. apply round_trip_single.
  - unfold run. rewrite bind_run. destruct cb as [f|].
    + left. split; [by split|].
      rewrite check_id_calls_back by done. by eexists.
    + right. split; [by intros [_ [? ?]]|].
      rewrite check_id_throws by done.
      right. by eexists.
Qed.
End Outcomes.

(** C2, as the code has it.  Every operation of the orders resource
    delivers exactly one outcome, one result or one error, except that
    [get], [update] and [cancel], called with an id that lacks the prefix
    and with a callback in the callback position, deliver the validation
    error to the callback and then reject the returned promise with a
    second error.  Nothing is said of [get] and [cancel] called with such
    an id and the callback in the params position. *)
Theorem Orders_outcomes
    (createError : value → value) (Order : ModelClass) (w : world)
    (id : string) (params : value) (cb : option callback) :
  let orders := base createError Order in
  let invalid := createError Orders.invalid_id in
  let shifted := Orders.using_callbacks params cb in
  let plain := bool_decide (is_Some cb) in
  let bad_id := startsWith id (resourcePrefix Order) = false in
  let twice := bad_id ∧ is_Some cb in
  let in_params := bad_id ∧ cb = None ∧ is_function params = true in
  let checked sigs :=
    (twice ∧ delivers_twice invalid sigs) ∨ (¬ twice ∧ single_outcome sigs) in
  single_outcome (signals plain (run (Orders.create orders params cb) w))
  ∧ single_outcome (signals shifted (run (Orders.list orders params cb) w))
  ∧ (in_params ∨ checked (signals shifted (run (Orders.get orders Order id params cb) w)))
  ∧ checked (signals plain (run (Orders.update orders Order id params cb) w))
  ∧ (in_params ∨ checked (signals shifted (run (Orders.cancel orders Order id params cb) w))).
Proof.
  intros orders invalid shifted plain bad_id twice in_params checked.
  subst orders invalid shifted plain bad_id twice in_params checked.
  pose proof (using_callbacks_cb_of params cb) as Hshift.
  split; [apply round_trip_single|].
  split; [rewrite list_delegates, Hshift; apply round_trip_single|].
  split; [right; rewrite get_delegates; by apply checked_outcomes|].
  split; [by apply checked_outcomes|].
  right. rewrite cancel_delegates. by apply checked_outcomes.
Qed.

(** C2, as the specification words it, fails: with an id that lacks the
    prefix and a callback in the callback position, [get] hands the
    validation error to the callback and rejects its promise as well. *)
Lemma Orders_get_delivers_two_errors :
  let w := world_answering NoReply in
  let orders := base sample_createError Order_sample in
  ¬ single_outcome
      (signals true (run (Orders.get orders Order_sample "foo" VUndefined (Some 0%nat)) w)).
Proof.
  intros w orders [[v Hv]|[e He]]; vm_compute in Hv || vm_compute in He; discriminate.
Qed.

(** What that call delivers. *)
Example Orders_get_two_errors :
  signals true
    (run (Orders.get (base sample_createError Order_sample) Order_sample
            "foo" VUndefined (Some 0%nat)) (world_answering NoReply))
  = [Error (sample_createError Orders.invalid_id); Error (sample_createError VUndefined)].
Proof. reflexivity. Qed.

(** ** The callback form against the promise form *)

Section CallbackForm.
Variable createError : value → value.
Variable Order : ModelClass.
Variable w : world.

Let orders : ResourceClass := base createError Order.

(** A callback in the callback position receives what the promise form
    settles with, whatever the id. *)
Lemma get_callback_position_agrees (id : string) (params : value) (f : callback) :
  is_function params = false →
  callback_form_agrees f
    (run (Orders.get orders Order id params None) w)
    (run (Orders.get orders Order id params (Some f)) w).
Proof.
  intros Hp. rewrite !get_delegates. unfold orders.
  assert (Hcb : ∀ cb, Orders.cb_of params cb = cb) by (by destruct params).
  rewrite !Hcb.
  destruct (startsWith id (resourcePrefix Order)) eqn:Hid.
  - rewrite !check_id_valid by done. apply round_trip_agrees.
  - unfold run. rewrite !bind_run.
    rewrite check_id_throws, check_id_calls_back by done.
    split; [|done]. simpl. by rewrite bool_decide_eq_true_2.
Qed.

(** So does a callback in the params position, when the id has the
    prefix. *)
Lemma get_params_position_agrees (id : string) (f : callback) (cb : option callback) :
  startsWith id (resourcePrefix Order) = true →
  callback_form_agrees f
    (run (Orders.get orders Order id VNull None) w)
    (run (Orders.get orders Order id (VFun f) cb) w).
Proof.
  intros Hid. rewrite !get_delegates. unfold orders.
  rewrite !check_id_valid by done. apply round_trip_agrees.
Qed.
End CallbackForm.

(** C5 fails on the code.  With an id that lacks the prefix, the promise
    form of [get] rejects with the validation error, and so should hand
    that error to a callback; a callback passed in the params position is
    never called, since the id check looks at the callback position only:
    the two forms disagree. *)
Theorem Orders_get_drops_params_callback
    (createError : value → value) (w : world) (f : callback) :
  let orders := base createError Order_sample in
  let promise_form := run (Orders.get orders Order_sample "foo" VNull None) w in
  let callback_form := run (Orders.get orders Order_sample "foo" (VFun f) None) w in
  outcome promise_form = Rejected (createError Orders.invalid_id)
  ∧ callback_arguments (outcome promise_form) = [createError Orders.invalid_id]
  ∧ invocations f (trace callback_form) = []
  ∧ ¬ callback_form_agrees f promise_form callback_form.
Proof.
  intros orders promise_form callback_form.
  repeat split; try reflexivity.
  intros [Hcalls _]. discriminate Hcalls.
Qed.

(** ** Sample calls *)

(** [orders.get('ord_1', cb)]: the callback moves to the callback position
    and receives [(null, order)]; one request is sent. *)
Example get_with_callback_as_params :
  let body : obj := {[ "id" := VStr "ord_1" ]} in
  run (Orders.get (base sample_createError Order_sample) Order_sample
         "ord_1" (VFun 3%nat) None)
      (world_answering (Reply 200 (Some (VObj body))))
  = (Fulfilled VUndefined,
     [Sent {| verb := GET; url := "/orders/ord_1"; query := VNull; body := VUndefined |};
      Called 3%nat [VNull; VInst "Order" body]]).
Proof. vm_compute. reflexivity. Qed.

(** [orders.get('ord_1')] against a 404: the promise rejects with the
    typed error, whose message is the [detail] of the answer. *)
Example get_not_found :
  let body : obj := {[ "status" := VNum 404; "detail" := VStr "No order exists with token ord_1." ]} in
  (surfaced_error None
     (run (Orders.get (base sample_createError Order_sample) Order_sample
             "ord_1" VUndefined None)
          (world_answering (Reply 404 (Some (VObj body)))))
     ≫= ApiError.getMessage)
  = Some (VStr "No order exists with token ord_1.").
Proof. vm_compute. reflexivity. Qed.

(** [orders.get('foo')]: rejected at once, nothing sent. *)
Example get_invalid_id :
  run (Orders.get (base sample_createError Order_sample) Order_sample
         "foo" VUndefined None)
      (world_answering NoReply)
  = (Rejected (sample_createError Orders.invalid_id), []).
Proof. reflexivity. Qed.

(** * Further properties of the sources *)

(** ** Which ids pass the check *)

Lemma startsWith_append (p rest : string) : startsWith (p +:+ rest) p = true.
Proof.
  unfold startsWith. induction p as [|a p IH]; simpl.
  - by destruct rest.
  - by destruct (Ascii.ascii_dec a a).
Qed.

Lemma startsWith_inv (id p : string) :
  startsWith id p = true → ∃ rest, id = p +:+ rest.
Proof.
  unfold startsWith. revert id. induction p as [|a p IH]; intros id Hp.
  - by exists id.
  - destruct id as [|b id]; simpl in Hp; [done|].
    destruct (Ascii.ascii_dec a b) as [->|]; [|done].
    destruct (IH id Hp) as [rest ->]. by exists rest.
Qed.

(** ** An id with the prefix *)

(** X2. For an id that starts with the prefix, the id check leaves no
    trace: [get], [update], [cancel] and [delete] of the orders resource
    are exactly the base [get], [update] and [delete], called once with
    the same id and with params and callback after the shift, for every
    base class. *)
Theorem Orders_valid_id_is_transparent
    (super : ResourceClass) (Order : ModelClass)
    (id : string) (params : value) (cb : option callback) :
  startsWith id (resourcePrefix Order) = true →
  let params' := if is_function params then VNull else params in
  let cb' := match params with VFun f => Some f | _ => cb end in
  Orders.get super Order id params cb = super_get super id params' cb'
  ∧ Orders.update super Order id params cb = super_update super id params cb
  ∧ Orders.cancel super Order id params cb = super_delete super id params' cb'
  ∧ Orders.delete super Order id params cb = super_delete super id params' cb'.
Proof.
  intros Hid params' cb'.
  unfold Orders.delete, Orders.update.
  rewrite get_delegates, cancel_delegates, !check_id_valid by done.
  by repeat split.
Qed.

Lemma Orders_valid_id_is_transparent_witness :
  let super := base sample_createError Order_sample in
  Orders.get super Order_sample "ord_1" (VFun 3%nat) (Some 4%nat)
    = super_get super "ord_1" VNull (Some 3%nat)
  ∧ Orders.update super Order_sample "ord_1" (VFun 3%nat) (Some 4%nat)
    = super_update super "ord_1" (VFun 3%nat) (Some 4%nat)
  ∧ Orders.cancel super Order_sample "ord_1" (VFun 3%nat) (Some 4%nat)
    = super_delete super "ord_1" VNull (Some 3%nat)
  ∧ Orders.delete super Order_sample "ord_1" (VFun 3%nat) (Some 4%nat)
    = super_delete super "ord_1" VNull (Some 3%nat).
Proof.
  apply (Orders_valid_id_is_transparent (base sample_createError Order_sample)
           Order_sample "ord_1" (VFun 3%nat) (Some 4%nat)).
  reflexivity.
Defined.

(** ** An id without the prefix *)

Section InvalidId.
Variable super : ResourceClass.
Variable Order : ModelClass.
Hypothesis errorHandler_throws : ∀ r, ∃ e, errorHandler super r None = throw e.

Lemma check_id_rejects (id : string) (cb : option callback) (w : world) (t : list event) :
  startsWith id (resourcePrefix Order) = false →
  ∃ e t', Orders.check_id super Order id cb w t = (Rejected e, t').
Proof using errorHandler_throws.
  intros Hid. unfold Orders.check_id. rewrite Hid. simpl.
  rewrite bind_run.
  destruct (errorHandler super Orders.invalid_id cb w t) as [[r|e] t'] eqn:Hinner;
    [|by eauto].
  rewrite bind_run.
  destruct (errorHandler_throws r) as [e ->]. by eauto.
Qed.

Lemma check_id_same_errorHandler (super' : ResourceClass) (id : string)
    (cb : option callback) :
  errorHandler super' = errorHandler super →
  Orders.check_id super' Order id cb = Orders.check_id super Order id cb.
Proof. intros Heq. unfold Orders.check_id. by rewrite Heq. Qed.
End InvalidId.

(** X1. For any base class whose [errorHandler] throws when it is given
    no callback, the id check of the orders resource accepts exactly the
    ids that extend the prefix of the order model: the check returns
    normally, without any effect, if and only if the id is the prefix
    followed by some, possibly empty, rest; for every other id it rejects.
    So the bare prefix passes, and the empty id passes only when the
    prefix is empty. *)
Theorem Orders_check_accepts_prefix_extensions
    (super : ResourceClass) (Order : ModelClass)
    (id : string) (cb : option callback) (w : world) (t : list event) :
  (∀ r, ∃ e, errorHandler super r None = throw e) →
  ((∃ rest, id = resourcePrefix Order +:+ rest)
     ↔ Orders.check_id super Order id cb w t = (Fulfilled tt, t))
  ∧ ((∀ rest, id ≠ resourcePrefix Order +:+ rest)
     ↔ ∃ e t', Orders.check_id super Order id cb w t = (Rejected e, t'))
  ∧ (Orders.check_id super Order (resourcePrefix Order) cb w t = (Fulfilled tt, t))
  ∧ (Orders.check_id super Order "" cb w t = (Fulfilled tt, t)
     ↔ resourcePrefix Order = "").
Proof.
  intros Hthrows.
  assert (Hpass : ∀ i, startsWith i (resourcePrefix Order) = true →
                       Orders.check_id super Order i cb w t = (Fulfilled tt, t)).
  { intros i Hi. by rewrite check_id_valid. }
  assert (Hiff : ∀ i, (∃ rest, i = resourcePrefix Order +:+ rest)
                      ↔ Orders.check_id super Order i cb w t = (Fulfilled tt, t)).
  { intros i. split.
    - intros [rest ->]. apply Hpass, startsWith_append.
    - intros Hrun.
      destruct (startsWith i (resourcePrefix Order)) eqn:Hi;
        [by apply startsWith_inv|].
      destruct (check_id_rejects super Order Hthrows i cb w t Hi) as (e & t' & Hrej).
      by rewrite Hrej in Hrun. }
  split; [apply Hiff|]. split; [|split].
  - split.
    + intros Hno.
      destruct (startsWith id (resourcePrefix Order)) eqn:Hid.
      * destruct (startsWith_inv _ _ Hid) as [rest ->]. by destruct (Hno rest).
      * by apply check_id_rejects.
    + intros (e & t' & Hrej) rest ->.
      rewrite Hpass in Hrej by apply startsWith_append. done.
  - apply Hpass. generalize (resourcePrefix Order). intros p.
    unfold startsWith. induction p as [|a p IH]; simpl; [done|].
    by destruct (Ascii.ascii_dec a a).
  - rewrite <-Hiff. split.
    + intros [rest Hrest]. by destruct (resourcePrefix Order).
    + intros ->. by exists ""%string.
Qed.

Lemma Orders_check_accepts_prefix_extensions_witness :
  let super := base sample_createError Order_sample in
  let w := world_answering NoReply in
  Orders.check_id super Order_sample "ord_" None w [] = (Fulfilled tt, [])
  ∧ ∃ e t', Orders.check_id super Order_sample "foo" None w [] = (Rejected e, t').
Proof.
  intros super w. split.
  - apply (Orders_check_accepts_prefix_extensions super Order_sample "ord_" None w []).
    intros r. by eexists.
  - apply (Orders_check_accepts_prefix_extensions super Order_sample "foo" None w []).
    + intros r. by eexists.
    + intros rest Hrest. by destruct rest.
Defined.

(** X3. For an id that does not start with the prefix, and any base class
    whose [errorHandler] throws when it is given no callback, [get],
    [update] and [cancel] never reach the methods of the base class: all
    three reject the promise, with the same error and the same effects,
    and these do not change when the five base methods are replaced by
    any others. *)
Theorem Orders_invalid_id_never_reaches_base
    (super super' : ResourceClass) (Order : ModelClass)
    (id : string) (params : value) (cb : option callback)
    (w : world) (t : list event) :
  (∀ r, ∃ e, errorHandler super r None = throw e) →
  errorHandler super' = errorHandler super →
  startsWith id (resourcePrefix Order) = false →
  ∃ (e : value) (t' : list event),
    Forall (λ m : M value, m w t = (Rejected e, t'))
      [Orders.get super Order id params cb;
       Orders.update super Order id params cb;
       Orders.cancel super Order id params cb;
       Orders.get super' Order id params cb;
       Orders.update super' Order id params cb;
       Orders.cancel super' Order id params cb].
Proof.
  intros Hthrows Hsame Hid.
  destruct (check_id_rejects super Order Hthrows id cb w t Hid) as (e & t' & Hcheck).
  exists e, t'.
  pose proof (check_id_same_errorHandler super Order super' id cb Hsame) as Hsuper'.
  repeat constructor;
    unfold Orders.get, Orders.update, Orders.cancel;
    rewrite bind_run, ?Hsuper', Hcheck; reflexivity.
Qed.

Lemma Orders_invalid_id_never_reaches_base_witness :
  let super := base sample_createError Order_sample in
  let super' :=
    Build_ResourceClass (λ _ _, mret VNull) (λ _ _ _, mret VNull) (λ _ _, mret VNull)
      (λ _ _ _, mret VNull) (λ _ _ _, mret VNull) (errorHandler super) in
  ∃ (e : value) (t' : list event),
    Forall (λ m : M value, m (world_answering NoReply) [] = (Rejected e, t'))
      [Orders.get super Order_sample "foo" VUndefined (Some 0%nat);
       Orders.update super Order_sample "foo" VUndefined (Some 0%nat);
       Orders.cancel super Order_sample "foo" VUndefined (Some 0%nat);
       Orders.get super' Order_sample "foo" VUndefined (Some 0%nat);
       Orders.update super' Order_sample "foo" VUndefined (Some 0%nat);
       Orders.cancel super' Order_sample "foo" VUndefined (Some 0%nat)].
Proof.
  intros super super'.
  apply (Orders_invalid_id_never_reaches_base super super' Order_sample
           "foo" VUndefined (Some 0%nat) (world_answering NoReply) []).
  - intros r. by eexists.
  - reflexivity.
  - reflexivity.
Defined.

(** ** The alias [all] *)

(** X4. On the orders resource [all] is [list]: for every base class it
    is the base [list], called once with params and callback after the
    shift and without any id check.  So [all(f)] is [all(null, f)], and a
    second function given in the callback position is ignored. *)
Theorem Orders_all_is_list
    (super : ResourceClass) (params : value) (cb : option callback) (f : callback) :
  Orders.all super params cb = Orders.list super params cb
  ∧ Orders.all super params cb
    = super_list super (if is_function params then VNull else params)
        (match params with VFun g => Some g | _ => cb end)
  ∧ Orders.all super (VFun f) cb = Orders.all super VNull (Some f).
Proof.
  unfold Orders.all. rewrite !list_delegates. by repeat split.
Qed.

(** ** A callback in the callback position *)

Section CallbackPosition.
Variable super : ResourceClass.
Variable Order : ModelClass.
Variable w : world.
Variable f : callback.
Variable E : value → value.
Hypothesis errorHandler_throws : ∀ r, errorHandler super r None = throw (E r).
Hypothesis errorHandler_calls : ∀ r, errorHandler super r (Some f) = call f [E r].

End CallbackPosition.



(** ** More on the capture model *)

Section CaptureCopies.
Variable Model_fields : obj.
Hypothesis Model_no_proto : Model_fields !! "__proto__" = None.

(** The own properties of a capture: the partial without [__proto__], over
    the defaults. *)
Lemma Capture_own (props : option obj) (c : object) :
  Capture.create Model_fields props = Some c →
  own c = delete "__proto__" (default ∅ props) ∪ (Capture.fields ∪ Model_fields).
Proof using Model_no_proto.
  intros Hc. apply map_eq. intros k.
  destruct props as [p|]; simpl.
  - destruct (decide (k = "__proto__")) as [->|Hk].
    + destruct (Object_assign_prototype _ _ _
                  (Capture_no_proto_field _ Model_no_proto) Hc) as [-> _].
      symmetry. apply lookup_union_None. split; [apply lookup_delete_eq|].
      by apply lookup_union_None.
    + rewrite (Object_assign_own _ _ _ _ Hc Hk).
      change (own (Capture.initialised Model_fields))
        with (Capture.fields ∪ Model_fields).
      destruct (p !! k) as [v|] eqn:Hp.
      * symmetry. apply lookup_union_Some_l. by rewrite lookup_delete_ne.
      * symmetry. apply lookup_union_r. by rewrite lookup_delete_ne.
  - injection Hc as <-. simpl. by rewrite delete_empty, (left_id_L ∅ (∪)).
Qed.
End CaptureCopies.



(** X7. Whatever partial a capture is constructed from, its field names
    are those of the partial other than [__proto__], the ten declared
    ones and those of the base class, and no others; so each declared
    field is present on every capture.  (The base class is taken to leave
    no own [__proto__] property.) *)
Theorem Capture_field_names (Model_fields : obj) (props : option obj) (c : object) :
  Model_fields !! "__proto__" = None →
  Capture.create Model_fields props = Some c →
  dom (own c)
  = (dom (default ∅ props) ∖ {["__proto__"]}) ∪ dom Capture.fields ∪ dom Model_fields
  ∧ dom Capture.fields
    = list_to_set ["resource"; "id"; "mode"; "amount"; "settlementAmount";
                   "paymentId"; "createdAt"; "_links"; "shipmentId"; "settlementId"]
  ∧ Forall (λ k, is_Some (own c !! k))
      ["resource"; "id"; "mode"; "amount"; "settlementAmount";
       "paymentId"; "createdAt"; "_links"; "shipmentId"; "settlementId"].
Proof.
  intros HM Hc.
  pose proof (Capture_own _ HM _ _ Hc) as Hown.
  assert (Hdom : dom (own c)
                 = (dom (default ∅ props) ∖ {["__proto__"]})
                   ∪ dom Capture.fields ∪ dom Model_fields).
  { by rewrite Hown, !dom_union_L, dom_delete_L, (assoc_L (∪)). }
  assert (Hfields : ∀ k v, Capture.fields !! k = Some v → is_Some (own c !! k)).
  { intros k v Hk. apply elem_of_dom. rewrite Hdom.
    apply elem_of_union_l, elem_of_union_r, elem_of_dom. by eexists. }
  split; [exact Hdom|]. split.
  - by vm_compute.
  - repeat constructor; by eapply Hfields.
Qed.

Lemma Capture_field_names_witness :
  let props : obj := {[ "note" := VStr "x"; "__proto__" := VStr "y" ]} in
  ∃ c : object,
    Capture.create ∅ (Some props) = Some c
    ∧ dom (own c) = {["note"]} ∪ dom Capture.fields.
Proof.
  intros props.
  pose (c := {| prototype_of := ClassPrototype "Capture";
                own := delete "__proto__" props ∪ (Capture.fields ∪ ∅) |}).
  assert (Hc : Capture.create ∅ (Some props) = Some c) by reflexivity.
  destruct (Capture_field_names ∅ (Some props) c) as [Hdom _];
    [reflexivity|exact Hc|].
  exists c. split; [exact Hc|].
  rewrite Hdom. by vm_compute.
Defined.
